(** * Sensors and messages: a shallow embedding of [sensors_and_messages.cpp]

    The translation unit declares a [Message] struct, a [Sensor] class with
    one member function [processMessages], a global registry [sensors], the
    function [initialize_sensors], the thread body [test_thread] and [main].
    Every function is embedded as a command over an explicit program state
    ([World]) that can end normally, run into undefined behaviour, block on a
    mutex, or throw. *)

From stdpp Require Import base gmap list strings.

Open Scope string_scope.
Open Scope Z_scope.

(** ** Data model *)

(** Heap addresses: the targets of [Message*] and [Sensor*]. *)
Definition addr := positive.

(** Thread identifiers; [0] is the thread that runs [main]. *)
Definition tid := nat.

(** [struct Message { int dest_id; int hops; }].  The program only compares
    these [int]s for equality, so no wrap-around arithmetic is involved. *)
Record Message := mkMessage {
  dest_id : Z;
  hops : Z
}.

(** [class Sensor]: [messageList] is a [std::list<Message*>] (front of the
    list first), [messageListMutex] a [std::mutex], given by its owner. *)
Record Sensor := mkSensor {
  node_id : Z;
  connections : list Z;
  messageList : list addr;
  messageListMutex : option tid
}.

(** Functions a [std::thread] is started on. *)
Inductive thread_fn := fn_test_thread.

Inductive thread_state :=
| Started (f : thread_fn)   (* constructed, body not yet run *)
| Finished                  (* body has run, still joinable *)
| Joined.

(** Program state.  [sensors] is the global [std::map<int, Sensor*>];
    [sensor_objs] and [message_objs] are the live [Sensor] and [Message]
    objects; [cout] collects the lines written to standard output, each with
    the thread that wrote it; [threads] holds the [std::thread]s created so
    far (thread [S i] is entry [i]); [self] is the running thread. *)
Record World := mkWorld {
  sensors : gmap Z addr;
  sensor_objs : gmap addr Sensor;
  message_objs : gmap addr Message;
  cout : list (tid * string);
  threads : list thread_state;
  self : tid
}.

Definition initial_world : World :=
  mkWorld ∅ ∅ ∅ [] [] 0%nat.

Definition set_messageList (l : list addr) (s : Sensor) : Sensor :=
  mkSensor (node_id s) (connections s) l (messageListMutex s).

Definition set_messageListMutex (o : option tid) (s : Sensor) : Sensor :=
  mkSensor (node_id s) (connections s) (messageList s) o.

Definition set_sensor_objs (m : gmap addr Sensor) (w : World) : World :=
  mkWorld (sensors w) m (message_objs w) (cout w) (threads w) (self w).

Definition set_cout (c : list (tid * string)) (w : World) : World :=
  mkWorld (sensors w) (sensor_objs w) (message_objs w) c (threads w) (self w).

Definition set_threads (t : list thread_state) (w : World) : World :=
  mkWorld (sensors w) (sensor_objs w) (message_objs w) (cout w) t (self w).

Definition set_self (t : tid) (w : World) : World :=
  mkWorld (sensors w) (sensor_objs w) (message_objs w) (cout w) (threads w) t.

(** ** Commands *)

(** Ways a call can have no defined result. *)
Inductive ub :=
| front_of_empty_list      (* [front()] / [pop_front()] on an empty list *)
| invalid_pointer          (* dereference of a pointer to no live object *)
| relock_owned_mutex       (* [lock()] by the owner of the mutex *)
| unlock_unowned_mutex.    (* [unlock()] by a thread that is not the owner *)

(** Exceptions.  The first three are the error kinds the specification
    names; the source contains no [throw].  [system_error] is what
    [std::thread::join] throws on a thread that is not joinable. *)
Inductive exn :=
| ConfigurationError
| GraphConstructionError
| InternalInvariantViolation
| system_error.

Inductive outcome (A : Type) :=
| Ok (a : A) (w : World)
| Undefined (u : ub)
| Blocks
| Throws (e : exn).
Arguments Ok {A} a w.
Arguments Undefined {A} u.
Arguments Blocks {A}.
Arguments Throws {A} e.

Definition cmd (A : Type) : Type := World → outcome A.

#[global] Instance cmd_ret : MRet cmd := λ A a w, Ok a w.

#[global] Instance cmd_bind : MBind cmd := λ A B f c w,
  match c w with
  | Ok a w' => f a w'
  | Undefined u => Undefined u
  | Blocks => Blocks
  | Throws e => Throws e
  end.

Definition undefined {A} (u : ub) : cmd A := λ _, Undefined u.
Definition blocks {A} : cmd A := λ _, Blocks.
Definition throw {A} (e : exn) : cmd A := λ _, Throws e.

Definition get_self : cmd tid := λ w, Ok (self w) w.

Definition modify (f : World → World) : cmd unit := λ w, Ok tt (f w).

(** [*p] for a [Sensor* p] (in particular [this]). *)
Definition get_sensor (p : addr) : cmd Sensor := λ w,
  match sensor_objs w !! p with
  | Some s => Ok s w
  | None => Undefined invalid_pointer
  end.

Definition put_sensor (p : addr) (s : Sensor) : cmd unit :=
  modify (λ w, set_sensor_objs (<[p := s]> (sensor_objs w)) w).

(** [*p] for a [Message* p]. *)
Definition get_message (p : addr) : cmd Message := λ w,
  match message_objs w !! p with
  | Some m => Ok m w
  | None => Undefined invalid_pointer
  end.

(** [messageListMutex.lock()] on the sensor at [this]. *)
Definition messageListMutex_lock (this : addr) : cmd unit :=
  s ← get_sensor this;
  me ← get_self;
  match messageListMutex s with
  | None => put_sensor this (set_messageListMutex (Some me) s)
  | Some owner => if decide (owner = me) then undefined relock_owned_mutex
                  else blocks
  end.

(** [messageListMutex.unlock()]. *)
Definition messageListMutex_unlock (this : addr) : cmd unit :=
  s ← get_sensor this;
  me ← get_self;
  match messageListMutex s with
  | Some owner => if decide (owner = me)
                  then put_sensor this (set_messageListMutex None s)
                  else undefined unlock_unowned_mutex
  | None => undefined unlock_unowned_mutex
  end.

(** [messageList.front()]. *)
Definition messageList_front (this : addr) : cmd addr :=
  s ← get_sensor this;
  match messageList s with
  | [] => undefined front_of_empty_list
  | p :: _ => mret p
  end.

(** [messageList.pop_front()]. *)
Definition messageList_pop_front (this : addr) : cmd unit :=
  s ← get_sensor this;
  match messageList s with
  | [] => undefined front_of_empty_list
  | _ :: rest => put_sensor this (set_messageList rest s)
  end.

(** [void Sensor::processMessages()].  Both branches of the [if] and the
    part after [unlock()] contain comments only. *)
Definition processMessages (this : addr) : cmd unit :=
  messageListMutex_lock this;;
  pmsg ← messageList_front this;
  messageList_pop_front this;;
  s ← get_sensor this;
  m ← get_message pmsg;
  (if decide (node_id s = dest_id m)
   then mret tt
   else mret tt);;
  messageListMutex_unlock this;;
  mret tt.

(** [void initialize_sensors(int N, int M)]: the body is empty. *)
Definition initialize_sensors (N M : Z) : cmd unit :=
  mret tt.

(** [std::cout << s << std::endl]. *)
Definition cout_line (s : string) : cmd unit :=
  modify (λ w, set_cout (cout w ++ [(self w, s)]) w).

(** [void test_thread()]. *)
Definition test_thread : cmd unit :=
  cout_line "hello from thread...".

Definition thread_body (f : thread_fn) : cmd unit :=
  match f with
  | fn_test_thread => test_thread
  end.

(** Run [c] as thread [t], then switch back to the caller. *)
Definition run_as (t : tid) (c : cmd unit) : cmd unit :=
  me ← get_self;
  modify (set_self t);;
  c;;
  modify (set_self me).

Definition get_threads : cmd (list thread_state) := λ w, Ok (threads w) w.

Definition set_thread (t : tid) (st : thread_state) : cmd unit :=
  modify (λ w, set_threads (<[pred t := st]> (threads w)) w).

Section Scheduling.
(** The new thread may run its body as soon as it is constructed
    ([eager = true]) or only when it is waited for ([eager = false]). *)
Variable eager : bool.

(** [std::thread t(f)]. *)
Definition thread_create (f : thread_fn) : cmd tid :=
  ts ← get_threads;
  let t := S (length ts) in
  modify (set_threads (ts ++ [Started f]));;
  (if eager
   then run_as t (thread_body f);; set_thread t Finished
   else mret tt);;
  mret t.

(** [t.join()]. *)
Definition thread_join (t : tid) : cmd unit :=
  ts ← get_threads;
  match t with
  | O => throw system_error
  | S i =>
      match ts !! i with
      | Some (Started f) => run_as t (thread_body f);; set_thread t Joined
      | Some Finished => set_thread t Joined
      | Some Joined | None => throw system_error
      end
  end.

(** [int main(int argc, char *argv[])]. *)
Definition main (argc : Z) (argv : list string) : cmd Z :=
  cout_line "calling the thread";;
  t ← thread_create fn_test_thread;
  thread_join t;;
  mret 0.
End Scheduling.

(** ** Derived notions *)

(** The state in which the sensor object at [p] is [s]. *)
Definition with_sensor (p : addr) (s : Sensor) (w : World) : World :=
  set_sensor_objs (<[p := s]> (sensor_objs w)) w.

(** The messages pending at the sensor object [q] (none if [q] is not a
    live sensor). *)
Definition pending (w : World) (q : addr) : list addr :=
  match sensor_objs w !! q with
  | Some s => messageList s
  | None => []
  end.

(** The call is rejected with a [ConfigurationError]. *)
Definition rejected (N M : Z) (w : World) : Prop :=
  initialize_sensors N M w = Throws ConfigurationError.

(** ** Worlds used as concrete inputs *)

(** Two registered sensors, [1] and [2], connected to each other; sensor [1]
    holds one message, addressed to sensor [2], that has made no hop. *)
Definition relay_world : World :=
  mkWorld {[ 1 := 1%positive; 2 := 2%positive ]}
          {[ 1%positive := mkSensor 1 [2] [5%positive] None;
             2%positive := mkSensor 2 [1] [] None ]}
          {[ 5%positive := mkMessage 2 0 ]}
          [] [] 0%nat.

(** The same network when the message has arrived at its addressee, the
    only message in flight. *)
Definition arrival_world : World :=
  mkWorld {[ 1 := 1%positive; 2 := 2%positive ]}
          {[ 1%positive := mkSensor 1 [2] [] None;
             2%positive := mkSensor 2 [1] [5%positive] None ]}
          {[ 5%positive := mkMessage 2 1 ]}
          [] [] 0%nat.

(** A sensor that has nothing to receive. *)
Definition idle_world : World :=
  mkWorld {[ 1 := 1%positive ]}
          {[ 1%positive := mkSensor 1 [] [] None ]}
          ∅ [] [] 0%nat.

(** ** Repeated calls and well-formed states *)

(** [n] calls of [c] in a row by the running thread. *)
Fixpoint times (n : nat) (c : cmd unit) : cmd unit :=
  match n with
  | O => mret tt
  | S k => c;; times k c
  end.

(** Every [Sensor*] in the registry points to a live sensor. *)
Definition registry_live (w : World) : Prop :=
  map_Forall (λ _ a, is_Some (sensor_objs w !! a)) (sensors w).

(** Every [Message*] in a message list points to a live message. *)
Definition lists_live (w : World) : Prop :=
  map_Forall (λ _ s, Forall (λ p, is_Some (message_objs w !! p))
                            (messageList s))
             (sensor_objs w).

(** No sensor's mutex is held. *)
Definition mutexes_free (w : World) : Prop :=
  map_Forall (λ _ s, messageListMutex s = None) (sensor_objs w).

Definition well_formed (w : World) : Prop :=
  registry_live w ∧ lists_live w ∧ mutexes_free w.

(** Sensor [1] while thread [3] holds its mutex; thread [0] is running. *)
Definition busy_world : World :=
  mkWorld {[ 1 := 1%positive ]}
          {[ 1%positive := mkSensor 1 [] [5%positive] (Some 3%nat) ]}
          {[ 5%positive := mkMessage 1 0 ]}
          [] [] 0%nat.

(** Sensor [1] whose list starts with a pointer to no message. *)
Definition dangling_world : World :=
  mkWorld {[ 1 := 1%positive ]}
          {[ 1%positive := mkSensor 1 [] [7%positive; 5%positive] None ]}
          {[ 5%positive := mkMessage 1 0 ]}
          [] [] 0%nat.

(** Sensor [1] with three messages pending, one of them its own. *)
Definition queue_world : World :=
  mkWorld {[ 1 := 1%positive; 2 := 2%positive ]}
          {[ 1%positive := mkSensor 1 [2]
                             [5%positive; 6%positive; 7%positive] None;
             2%positive := mkSensor 2 [1] [] None ]}
          {[ 5%positive := mkMessage 2 0;
             6%positive := mkMessage 1 3;
             7%positive := mkMessage 2 1 ]}
          [] [] 0%nat.

(** ** Proof automation *)

Ltac run_cmd :=
  unfold mbind, mret, cmd_bind, cmd_ret, get_threads, get_self, modify, throw;
  simpl.

(** ** Equations of the commands *)

Lemma bind_Ok {A B} (c : cmd A) (f : A → cmd B) (w w' : World) (a : A) :
  c w = Ok a w' → (c ≫= f) w = f a w'.
Proof. intros H. unfold mbind, cmd_bind. by rewrite H. Qed.

Lemma bind_Undefined {A B} (c : cmd A) (f : A → cmd B) (w : World) (u : ub) :
  c w = Undefined u → (c ≫= f) w = Undefined u.
Proof. intros H. unfold mbind, cmd_bind. by rewrite H. Qed.

Lemma get_sensor_Ok (w : World) (p : addr) (s : Sensor) :
  sensor_objs w !! p = Some s → get_sensor p w = Ok s w.
Proof. intros H. unfold get_sensor. by rewrite H. Qed.

Lemma get_message_Ok (w : World) (p : addr) (m : Message) :
  message_objs w !! p = Some m → get_message p w = Ok m w.
Proof. intros H. unfold get_message. by rewrite H. Qed.

Lemma with_sensor_lookup (w : World) (p : addr) (s : Sensor) :
  sensor_objs (with_sensor p s w) !! p = Some s.
Proof. apply lookup_insert_eq. Qed.

Lemma with_sensor_twice (w : World) (p : addr) (s s' : Sensor) :
  with_sensor p s' (with_sensor p s w) = with_sensor p s' w.
Proof.
  unfold with_sensor, set_sensor_objs. simpl. by rewrite insert_insert_eq.
Qed.

Lemma lock_free (w : World) (this : addr) (s : Sensor) :
  sensor_objs w !! this = Some s →
  messageListMutex s = None →
  messageListMutex_lock this w =
    Ok tt (with_sensor this (set_messageListMutex (Some (self w)) s) w).
Proof.
  intros Hs Hmx. unfold messageListMutex_lock.
  rewrite (bind_Ok _ _ _ _ _ (get_sensor_Ok _ _ _ Hs)).
  rewrite (bind_Ok get_self _ w w (self w) eq_refl).
  by rewrite Hmx.
Qed.

Lemma unlock_owned (w : World) (this : addr) (s : Sensor) :
  sensor_objs w !! this = Some s →
  messageListMutex s = Some (self w) →
  messageListMutex_unlock this w =
    Ok tt (with_sensor this (set_messageListMutex None s) w).
Proof.
  intros Hs Hmx. unfold messageListMutex_unlock.
  rewrite (bind_Ok _ _ _ _ _ (get_sensor_Ok _ _ _ Hs)).
  rewrite (bind_Ok get_self _ w w (self w) eq_refl).
  rewrite Hmx. by rewrite decide_True.
Qed.

Lemma front_cons (w : World) (this : addr) (s : Sensor) (p : addr)
    (rest : list addr) :
  sensor_objs w !! this = Some s →
  messageList s = p :: rest →
  messageList_front this w = Ok p w.
Proof.
  intros Hs Hl. unfold messageList_front.
  rewrite (bind_Ok _ _ _ _ _ (get_sensor_Ok _ _ _ Hs)). by rewrite Hl.
Qed.

Lemma front_nil (w : World) (this : addr) (s : Sensor) :
  sensor_objs w !! this = Some s →
  messageList s = [] →
  messageList_front this w = Undefined front_of_empty_list.
Proof.
  intros Hs Hl. unfold messageList_front.
  rewrite (bind_Ok _ _ _ _ _ (get_sensor_Ok _ _ _ Hs)). by rewrite Hl.
Qed.

Lemma pop_front_cons (w : World) (this : addr) (s : Sensor) (p : addr)
    (rest : list addr) :
  sensor_objs w !! this = Some s →
  messageList s = p :: rest →
  messageList_pop_front this w =
    Ok tt (with_sensor this (set_messageList rest s) w).
Proof.
  intros Hs Hl. unfold messageList_pop_front.
  rewrite (bind_Ok _ _ _ _ _ (get_sensor_Ok _ _ _ Hs)). by rewrite Hl.
Qed.

(** ** How [processMessages] runs *)

(** On a sensor whose mutex is free and whose list starts with a live
    message, the call returns, and its whole effect is that the list of this
    sensor has lost its front element. *)
Lemma processMessages_Ok (w : World) (this : addr) (s : Sensor)
    (p : addr) (rest : list addr) (m : Message) :
  sensor_objs w !! this = Some s →
  messageListMutex s = None →
  messageList s = p :: rest →
  message_objs w !! p = Some m →
  processMessages this w = Ok tt (with_sensor this (set_messageList rest s) w).
Proof.
  intros Hs Hmx Hl Hm. unfold processMessages.
  rewrite (bind_Ok _ _ _ _ _ (lock_free _ _ _ Hs Hmx)).
  set (s1 := set_messageListMutex (Some (self w)) s).
  set (w1 := with_sensor this s1 w).
  assert (H1 : sensor_objs w1 !! this = Some s1) by apply with_sensor_lookup.
  rewrite (bind_Ok _ _ _ _ _ (front_cons _ _ _ p rest H1 Hl)).
  rewrite (bind_Ok _ _ _ _ _ (pop_front_cons _ _ _ p rest H1 Hl)).
  subst w1. rewrite with_sensor_twice.
  set (s2 := set_messageList rest s1).
  set (w2 := with_sensor this s2 w).
  assert (H2 : sensor_objs w2 !! this = Some s2) by apply with_sensor_lookup.
  rewrite (bind_Ok _ _ _ _ _ (get_sensor_Ok _ _ _ H2)).
  rewrite (bind_Ok _ _ _ _ _ (get_message_Ok w2 p m Hm)).
  assert (Hbr : (if decide (node_id s2 = dest_id m)
                 then mret tt else mret tt : cmd unit) w2 = Ok tt w2)
    by (by destruct (decide _)).
  rewrite (bind_Ok _ _ _ _ _ Hbr).
  rewrite (bind_Ok _ _ _ _ _ (unlock_owned w2 this s2 H2 eq_refl)).
  subst w2. rewrite with_sensor_twice.
  unfold mret, cmd_ret. f_equal. f_equal.
  subst s2 s1. destruct s. simpl in *. by subst.
Qed.

(** With an empty list the call takes the mutex and then evaluates
    [messageList.front()], which has no defined result. *)
Lemma processMessages_empty (w : World) (this : addr) (s : Sensor) :
  sensor_objs w !! this = Some s →
  messageListMutex s = None →
  messageList s = [] →
  processMessages this w = Undefined front_of_empty_list.
Proof.
  intros Hs Hmx Hl. unfold processMessages.
  rewrite (bind_Ok _ _ _ _ _ (lock_free _ _ _ Hs Hmx)).
  apply bind_Undefined.
  eapply front_nil; [apply with_sensor_lookup | exact Hl].
Qed.

Lemma pending_with_sensor (w : World) (this q : addr) (s : Sensor) :
  pending (with_sensor this s w) q =
    if decide (q = this) then messageList s else pending w q.
Proof.
  unfold pending, with_sensor. simpl.
  destruct (decide (q = this)) as [->|Hne].
  - by rewrite lookup_insert_eq.
  - by rewrite lookup_insert_ne.
Qed.

(** ** Message handling: [Sensor::processMessages] *)

(** C1.  The code does not keep the message it takes from the list: when
    [processMessages] returns, the list of the processing sensor has lost
    its front message, the list of every other sensor is what it was before
    (the message was pushed to no neighbour), and no other part of the
    program state has changed (the message was recorded nowhere).  This
    holds in both branches, addressee or not. *)
Theorem processMessages_drops_message (w : World) (this : addr) (s : Sensor)
    (p : addr) (rest : list addr) (m : Message) :
  sensor_objs w !! this = Some s →
  messageListMutex s = None →
  messageList s = p :: rest →
  message_objs w !! p = Some m →
  ∃ w', processMessages this w = Ok tt w' ∧
        (∀ q, pending w' q = if decide (q = this) then rest else pending w q) ∧
        sensors w' = sensors w ∧
        message_objs w' = message_objs w ∧
        cout w' = cout w ∧
        threads w' = threads w ∧
        self w' = self w.
Proof.
  intros Hs Hmx Hl Hm. eexists. split.
  - by eapply processMessages_Ok.
  - split; [|done]. intros q. by rewrite pending_with_sensor.
Qed.

Lemma processMessages_drops_message_witness :
  ∃ w', processMessages 2%positive arrival_world = Ok tt w' ∧
        (∀ q, pending w' q =
              if decide (q = 2%positive) then [] else pending arrival_world q) ∧
        sensors w' = sensors arrival_world ∧
        message_objs w' = message_objs arrival_world ∧
        cout w' = cout arrival_world ∧
        threads w' = threads arrival_world ∧
        self w' = self arrival_world.
Proof.
  apply (processMessages_drops_message arrival_world 2%positive
           (mkSensor 2 [1] [5%positive] None) 5%positive [] (mkMessage 2 1));
    reflexivity.
Defined.

(** C2.  The step taken by a sensor that is not the addressee of the
    message neither counts a hop nor passes the message on: afterwards the
    message object is the one it was, with the same [hops], and the list of
    every other sensor, the connections included, is unchanged. *)
Theorem processMessages_relay_keeps_hops (w : World) (this : addr)
    (s : Sensor) (p : addr) (rest : list addr) (m : Message) :
  sensor_objs w !! this = Some s →
  messageListMutex s = None →
  messageList s = p :: rest →
  message_objs w !! p = Some m →
  node_id s ≠ dest_id m →
  ∃ w', processMessages this w = Ok tt w' ∧
        message_objs w' !! p = Some m ∧
        (hops <$> message_objs w' !! p) ≠ Some (hops m + 1) ∧
        (∀ q, q ≠ this → pending w' q = pending w q).
Proof.
  intros Hs Hmx Hl Hm _. eexists. split; [by eapply processMessages_Ok|].
  simpl. rewrite Hm. simpl. split_and!; [done| |].
  - intros [=]. lia.
  - intros q Hq. rewrite pending_with_sensor. by rewrite decide_False.
Qed.

Lemma processMessages_relay_keeps_hops_witness :
  ∃ w', processMessages 1%positive relay_world = Ok tt w' ∧
        message_objs w' !! 5%positive = Some (mkMessage 2 0) ∧
        (hops <$> message_objs w' !! 5%positive) ≠ Some (0 + 1) ∧
        (∀ q, q ≠ 1%positive → pending w' q = pending relay_world q).
Proof.
  apply (processMessages_relay_keeps_hops relay_world 1%positive
           (mkSensor 1 [2] [5%positive] None) 5%positive [] (mkMessage 2 0));
    [reflexivity | reflexivity | reflexivity | reflexivity | simpl; lia].
Defined.

(** C5.  Nothing keeps [processMessages] from reaching
    [messageList.front()] when no message is pending: with a free mutex and
    an empty list the call neither blocks nor returns a sentinel, it reads
    the front of the empty list. *)
Theorem processMessages_front_of_empty (w : World) (this : addr)
    (s : Sensor) :
  sensor_objs w !! this = Some s →
  messageListMutex s = None →
  messageList s = [] →
  processMessages this w = Undefined front_of_empty_list ∧
  processMessages this w ≠ Blocks.
Proof.
  intros Hs Hmx Hl. rewrite (processMessages_empty _ _ _ Hs Hmx Hl).
  split; [done | discriminate].
Qed.

Lemma processMessages_front_of_empty_witness :
  processMessages 1%positive idle_world = Undefined front_of_empty_list ∧
  processMessages 1%positive idle_world ≠ Blocks.
Proof.
  apply (processMessages_front_of_empty idle_world 1%positive
           (mkSensor 1 [] [] None)); reflexivity.
Defined.

(** C6.  The delivery of the last message in flight starts no shutdown:
    [processMessages] at the addressee returns with the thread table and
    every other sensor object untouched, and the next call of the same
    worker does not see a shutdown, it reads the front of its empty list. *)
Theorem processMessages_last_delivery_no_shutdown (w : World) (this : addr)
    (s : Sensor) (p : addr) (m : Message) :
  sensor_objs w !! this = Some s →
  messageListMutex s = None →
  messageList s = [p] →
  message_objs w !! p = Some m →
  node_id s = dest_id m →
  ∃ w', processMessages this w = Ok tt w' ∧
        threads w' = threads w ∧
        (∀ q, q ≠ this → sensor_objs w' !! q = sensor_objs w !! q) ∧
        processMessages this w' = Undefined front_of_empty_list.
Proof.
  intros Hs Hmx Hl Hm _. eexists. split; [by eapply processMessages_Ok|].
  split_and!; [done| |].
  - intros q Hq. simpl. by rewrite lookup_insert_ne.
  - eapply processMessages_empty; [apply with_sensor_lookup | done | done].
Qed.

Lemma processMessages_last_delivery_no_shutdown_witness :
  ∃ w', processMessages 2%positive arrival_world = Ok tt w' ∧
        threads w' = threads arrival_world ∧
        (∀ q, q ≠ 2%positive →
              sensor_objs w' !! q = sensor_objs arrival_world !! q) ∧
        processMessages 2%positive w' = Undefined front_of_empty_list.
Proof.
  apply (processMessages_last_delivery_no_shutdown arrival_world 2%positive
           (mkSensor 2 [1] [5%positive] None) 5%positive (mkMessage 2 1));
    reflexivity.
Defined.

(** ** Start-up: [initialize_sensors] *)

(** C10.  [initialize_sensors] is a no-op for all arguments: it returns
    normally and the program state after the call is the state before it,
    so the [sensors] registry is not changed, no [Sensor] and no [Message]
    object comes into being, and nothing is thrown. *)
Theorem initialize_sensors_noop (N M : Z) (w : World) :
  initialize_sensors N M w = Ok tt w.
Proof. reflexivity. Qed.

(** C3, as stated, fails: the pairs [(4, 1)] (with [2*M + 2 <= N]) and
    [(1, 1)] (with [N = 1] and [M >= N]) are not rejected. *)
Lemma initialize_sensors_not_rejected :
  (2 * 1 + 2 ≤ 4 ∧ ¬ rejected 4 1 initial_world) ∧
  (1 >= 1 ∧ ¬ rejected 1 1 initial_world).
Proof. unfold rejected. split; (split; [lia | discriminate]). Qed.

(** C3, amended.  For a pair with [2*M + 2 <= N] or [M >= N] the call
    raises no error, it returns normally; no worker has been started, and
    no graph was built and no message injected: registry, sensor objects
    and message objects are those from before the call. *)
Theorem initialize_sensors_accepts_any_pair (N M : Z) (w : World) :
  2 * M + 2 ≤ N ∨ M >= N →
  ∃ w', initialize_sensors N M w = Ok tt w' ∧
        threads w' = threads w ∧
        sensors w' = sensors w ∧
        sensor_objs w' = sensor_objs w ∧
        message_objs w' = message_objs w.
Proof. intros _. by exists w. Qed.

Lemma initialize_sensors_accepts_any_pair_witness :
  ∃ w', initialize_sensors 4 1 initial_world = Ok tt w' ∧
        threads w' = threads initial_world ∧
        sensors w' = sensors initial_world ∧
        sensor_objs w' = sensor_objs initial_world ∧
        message_objs w' = message_objs initial_world.
Proof.
  apply (initialize_sensors_accepts_any_pair 4 1 initial_world). left. lia.
Defined.

(** C4.  For a pair within the bound, started from the program's initial
    state, the call builds no network: the registry and the sensor heap
    are empty afterwards, so there are not [N] nodes. *)
Theorem initialize_sensors_builds_no_network (N M : Z) :
  0 < N →
  2 * M + 2 > N →
  ∃ w', initialize_sensors N M initial_world = Ok tt w' ∧
        sensors w' = ∅ ∧
        sensor_objs w' = ∅ ∧
        size (sensors w') ≠ Z.to_nat N.
Proof.
  intros HN _. exists initial_world. split_and!; try done.
  simpl. rewrite map_size_empty. lia.
Qed.

Lemma initialize_sensors_builds_no_network_witness :
  ∃ w', initialize_sensors 4 2 initial_world = Ok tt w' ∧
        sensors w' = ∅ ∧
        sensor_objs w' = ∅ ∧
        size (sensors w') ≠ Z.to_nat 4.
Proof.
  apply (initialize_sensors_builds_no_network 4 2); lia.
Defined.

(** C8.  The call injects nothing: for a node [i] below [N] the registry
    entry is what it was, no message object is created, and no sensor has a
    message pending that it did not have before. *)
Theorem initialize_sensors_injects_nothing (N M : Z) (w : World) (i : Z) :
  0 ≤ i < N →
  ∃ w', initialize_sensors N M w = Ok tt w' ∧
        sensors w' !! i = sensors w !! i ∧
        message_objs w' = message_objs w ∧
        (∀ q, pending w' q = pending w q).
Proof. intros _. by exists w. Qed.

Lemma initialize_sensors_injects_nothing_witness :
  ∃ w', initialize_sensors 4 2 initial_world = Ok tt w' ∧
        sensors w' !! 0 = sensors initial_world !! 0 ∧
        message_objs w' = message_objs initial_world ∧
        (∀ q, pending w' q = pending initial_world q).
Proof.
  apply (initialize_sensors_injects_nothing 4 2 initial_world 0). lia.
Defined.

(** ** The program: [main] *)

(** Whatever the schedule and the state [main] starts in, the call returns
    [0] after the two lines have been written, the first by the calling
    thread and the second by the new thread, which ends up joined. *)
Lemma main_runs (eager : bool) (argc : Z) (argv : list string) (w : World) :
  main eager argc argv w =
    Ok 0 (set_threads (threads w ++ [Joined])
            (set_cout (cout w ++ [(self w, "calling the thread");
                                  (S (length (threads w)),
                                   "hello from thread...")]) w)).
Proof.
  destruct w as [sn so mo co ts me].
  unfold main, thread_create, thread_join.
  destruct eager; run_cmd; unfold cout_line, set_thread, run_as; run_cmd;
    unfold set_threads, set_cout, set_self; simpl.
  - rewrite insert_app_r_alt by lia. rewrite Nat.sub_diag. simpl.
    rewrite list_lookup_middle by done. simpl.
    rewrite insert_app_r_alt by lia. rewrite Nat.sub_diag. simpl.
    by rewrite <- app_assoc.
  - rewrite list_lookup_middle by done. simpl.
    rewrite insert_app_r_alt by lia. rewrite Nat.sub_diag. simpl.
    by rewrite <- app_assoc.
Qed.

(** C9.  [main] does not depend on [argc] and [argv]; it returns [0]; what
    it writes is the line of the main thread followed by the line of the
    test thread and nothing else; the sensor registry and the sensor and
    message objects are those from before the call (no simulation runs). *)
Theorem main_ignores_arguments (eager : bool) (argc : Z) (argv : list string)
    (w : World) :
  ∃ w', main eager argc argv w = Ok 0 w' ∧
        main eager argc argv w = main eager 0 [] w ∧
        cout w' = (cout w ++ [(self w, "calling the thread");
                              (S (length (threads w)),
                               "hello from thread...")])%list ∧
        sensors w' = sensors w ∧
        sensor_objs w' = sensor_objs w ∧
        message_objs w' = message_objs w.
Proof.
  eexists. split; [apply main_runs|]. by rewrite !main_runs.
Qed.

(** ** Further properties of [Sensor::processMessages] *)

Lemma processMessages_no_sensor (w : World) (this : addr) :
  sensor_objs w !! this = None →
  processMessages this w = Undefined invalid_pointer.
Proof.
  intros Hs. unfold processMessages, messageListMutex_lock.
  apply bind_Undefined, bind_Undefined. unfold get_sensor. by rewrite Hs.
Qed.

Lemma processMessages_held (w : World) (this : addr) (s : Sensor)
    (owner : tid) :
  sensor_objs w !! this = Some s →
  messageListMutex s = Some owner →
  processMessages this w =
    if decide (owner = self w) then Undefined relock_owned_mutex else Blocks.
Proof.
  intros Hs Hmx. unfold processMessages.
  assert (Hl : messageListMutex_lock this w =
               if decide (owner = self w)
               then Undefined relock_owned_mutex else Blocks).
  { unfold messageListMutex_lock.
    rewrite (bind_Ok _ _ _ _ _ (get_sensor_Ok _ _ _ Hs)).
    rewrite (bind_Ok get_self _ w w (self w) eq_refl).
    rewrite Hmx. by destruct (decide _). }
  unfold mbind, cmd_bind. rewrite Hl. by destruct (decide _).
Qed.

Lemma processMessages_dangling (w : World) (this : addr) (s : Sensor)
    (p : addr) (rest : list addr) :
  sensor_objs w !! this = Some s →
  messageListMutex s = None →
  messageList s = p :: rest →
  message_objs w !! p = None →
  processMessages this w = Undefined invalid_pointer.
Proof.
  intros Hs Hmx Hl Hm. unfold processMessages.
  rewrite (bind_Ok _ _ _ _ _ (lock_free _ _ _ Hs Hmx)).
  set (s1 := set_messageListMutex (Some (self w)) s).
  set (w1 := with_sensor this s1 w).
  assert (H1 : sensor_objs w1 !! this = Some s1) by apply with_sensor_lookup.
  rewrite (bind_Ok _ _ _ _ _ (front_cons _ _ _ p rest H1 Hl)).
  rewrite (bind_Ok _ _ _ _ _ (pop_front_cons _ _ _ p rest H1 Hl)).
  subst w1. rewrite with_sensor_twice.
  set (s2 := set_messageList rest s1).
  set (w2 := with_sensor this s2 w).
  assert (H2 : sensor_objs w2 !! this = Some s2) by apply with_sensor_lookup.
  rewrite (bind_Ok _ _ _ _ _ (get_sensor_Ok _ _ _ H2)).
  apply bind_Undefined. unfold get_message. simpl. by rewrite Hm.
Qed.

(** Inversion of the outcome [Ok], which stands for a return along a path
    on which every step has defined behaviour: such an outcome arises only
    from a live sensor with a free mutex and a live message at the front of
    its list.  (What a call does after an undefined step, or once a held
    mutex is released, is not described by the embedding.) *)
Lemma processMessages_Ok_inv (w w' : World) (this : addr) :
  processMessages this w = Ok tt w' →
  ∃ s p rest m,
    sensor_objs w !! this = Some s ∧
    messageListMutex s = None ∧
    messageList s = p :: rest ∧
    message_objs w !! p = Some m ∧
    w' = with_sensor this (set_messageList rest s) w.
Proof.
  intros H.
  destruct (sensor_objs w !! this) as [s|] eqn:Hs;
    [|by rewrite processMessages_no_sensor in H].
  destruct (messageListMutex s) as [o|] eqn:Hmx.
  { rewrite (processMessages_held _ _ _ _ Hs Hmx) in H.
    by destruct (decide _). }
  destruct (messageList s) as [|p rest] eqn:Hl;
    [by rewrite (processMessages_empty _ _ _ Hs Hmx Hl) in H|].
  destruct (message_objs w !! p) as [m|] eqn:Hm;
    [|by rewrite (processMessages_dangling _ _ _ _ _ Hs Hmx Hl Hm) in H].
  rewrite (processMessages_Ok _ _ _ _ _ _ Hs Hmx Hl Hm) in H.
  exists s, p, rest, m. by inversion H.
Qed.

(** X2.  While the mutex of the sensor is held, the call does not get to
    the message list: it blocks if another thread holds the mutex, and has
    no defined result if the calling thread itself holds it. *)
Theorem processMessages_mutex_held (w : World) (this : addr) (s : Sensor)
    (owner : tid) :
  sensor_objs w !! this = Some s →
  messageListMutex s = Some owner →
  processMessages this w =
    if decide (owner = self w) then Undefined relock_owned_mutex else Blocks.
Proof. apply processMessages_held. Qed.

Lemma processMessages_mutex_held_witness :
  processMessages 1%positive busy_world =
    if decide (3%nat = self busy_world)
    then Undefined relock_owned_mutex else Blocks.
Proof.
  apply (processMessages_mutex_held busy_world 1%positive
           (mkSensor 1 [] [5%positive] (Some 3%nat)) 3%nat); reflexivity.
Defined.

(** X3.  The front pointer is dereferenced without a check: if it points to
    no live message, the call has no defined result (the comparison reads
    [pmsg->dest_id]). *)
Theorem processMessages_dangling_front (w : World) (this : addr) (s : Sensor)
    (p : addr) (rest : list addr) :
  sensor_objs w !! this = Some s →
  messageListMutex s = None →
  messageList s = p :: rest →
  message_objs w !! p = None →
  processMessages this w = Undefined invalid_pointer.
Proof. apply processMessages_dangling. Qed.

Lemma processMessages_dangling_front_witness :
  processMessages 1%positive dangling_world = Undefined invalid_pointer.
Proof.
  apply (processMessages_dangling_front dangling_world 1%positive
           (mkSensor 1 [] [7%positive; 5%positive] None)
           7%positive [5%positive]); reflexivity.
Defined.

(** X4.  A call that returns leaves the sensor as it found it except for
    the list: [node_id] and [connections] are unchanged, the mutex is free
    again, and the list is the old one without its front element. *)
Theorem processMessages_keeps_sensor (w w' : World) (this : addr) :
  processMessages this w = Ok tt w' →
  ∃ s s' p,
    sensor_objs w !! this = Some s ∧
    sensor_objs w' !! this = Some s' ∧
    node_id s' = node_id s ∧
    connections s' = connections s ∧
    messageListMutex s' = None ∧
    messageList s = p :: messageList s'.
Proof.
  intros H. apply processMessages_Ok_inv in H
    as (s & p & rest & m & Hs & Hmx & Hl & Hm & ->).
  exists s, (set_messageList rest s), p.
  split_and!; try done. apply with_sensor_lookup.
Qed.

Lemma processMessages_keeps_sensor_witness :
  ∃ s s' p,
    sensor_objs arrival_world !! 2%positive = Some s ∧
    sensor_objs (with_sensor 2%positive (mkSensor 2 [1] [] None) arrival_world)
      !! 2%positive = Some s' ∧
    node_id s' = node_id s ∧
    connections s' = connections s ∧
    messageListMutex s' = None ∧
    messageList s = p :: messageList s'.
Proof.
  apply (processMessages_keeps_sensor arrival_world
           (with_sensor 2%positive (mkSensor 2 [1] [] None) arrival_world)
           2%positive).
  reflexivity.
Defined.

(** ** Repeated calls *)

Lemma with_sensor_same (w : World) (this : addr) (s : Sensor) :
  sensor_objs w !! this = Some s →
  with_sensor this (set_messageList (messageList s) s) w = w.
Proof.
  intros Hs. destruct w as [sn so mo co ts me], s as [i c l mx].
  unfold with_sensor, set_sensor_objs, set_messageList. simpl in *.
  f_equal. by apply insert_id.
Qed.

Lemma times_processMessages (this : addr) (k : nat) :
  ∀ (w : World) (s : Sensor),
    sensor_objs w !! this = Some s →
    messageListMutex s = None →
    Forall (λ p, is_Some (message_objs w !! p)) (messageList s) →
    (k ≤ length (messageList s))%nat →
    times k (processMessages this) w =
      Ok tt (with_sensor this (set_messageList (drop k (messageList s)) s) w).
Proof.
  induction k as [|k IH]; intros w s Hs Hmx Hlive Hk.
  - simpl. rewrite drop_0. by rewrite with_sensor_same.
  - destruct (messageList s) as [|p rest] eqn:Hl; [simpl in Hk; lia|].
    apply Forall_cons in Hlive as [[m Hm] Hrest].
    simpl times.
    rewrite (bind_Ok _ _ _ _ _ (processMessages_Ok _ _ _ _ _ _ Hs Hmx Hl Hm)).
    rewrite (IH _ (set_messageList rest s)); simpl.
    + by rewrite with_sensor_twice.
    + apply lookup_insert_eq.
    + done.
    + done.
    + simpl in Hk. lia.
Qed.

(** X5.  Calls in a row take the messages in list order: after [k] calls on
    a sensor with a free mutex and at least [k] live messages pending, the
    list is the old one without its first [k] elements, and nothing else in
    the program state has changed. *)
Theorem processMessages_drains_in_order (w : World) (this : addr)
    (s : Sensor) (k : nat) :
  sensor_objs w !! this = Some s →
  messageListMutex s = None →
  Forall (λ p, is_Some (message_objs w !! p)) (messageList s) →
  (k ≤ length (messageList s))%nat →
  times k (processMessages this) w =
    Ok tt (with_sensor this (set_messageList (drop k (messageList s)) s) w).
Proof. apply times_processMessages. Qed.

Lemma processMessages_drains_in_order_witness :
  times 2 (processMessages 1%positive) queue_world =
    Ok tt (with_sensor 1%positive (mkSensor 1 [2] [7%positive] None)
             queue_world).
Proof.
  apply (processMessages_drains_in_order queue_world 1%positive
           (mkSensor 1 [2] [5%positive; 6%positive; 7%positive] None) 2).
  - reflexivity.
  - reflexivity.
  - simpl. repeat constructor; eexists; reflexivity.
  - simpl. lia.
Defined.

(** X6.  One call more than there are messages has no defined result: a
    worker that keeps calling [processMessages] ends by reading the front
    of its empty list, however many live messages it started with. *)
Theorem processMessages_overrun (w : World) (this : addr) (s : Sensor) :
  sensor_objs w !! this = Some s →
  messageListMutex s = None →
  Forall (λ p, is_Some (message_objs w !! p)) (messageList s) →
  times (S (length (messageList s))) (processMessages this) w =
    Undefined front_of_empty_list.
Proof.
  intros Hs Hmx Hlive.
  remember (messageList s) as l eqn:Hl. symmetry in Hl.
  revert w s Hs Hmx Hl Hlive.
  induction l as [|p rest IH]; intros w s Hs Hmx Hl Hlive.
  - simpl. apply bind_Undefined. by eapply processMessages_empty.
  - apply Forall_cons in Hlive as [[m Hm] Hrest].
    change (times (S (length (p :: rest))) (processMessages this))
      with (processMessages this;;
            times (S (length rest)) (processMessages this)).
    rewrite (bind_Ok _ _ _ _ _ (processMessages_Ok _ _ _ _ _ _ Hs Hmx Hl Hm)).
    apply (IH _ (set_messageList rest s)); simpl; try done.
    apply lookup_insert_eq.
Qed.

Lemma processMessages_overrun_witness :
  times 4 (processMessages 1%positive) queue_world =
    Undefined front_of_empty_list.
Proof.
  apply (processMessages_overrun queue_world 1%positive
           (mkSensor 1 [2] [5%positive; 6%positive; 7%positive] None)).
  - reflexivity.
  - reflexivity.
  - simpl. repeat constructor; eexists; reflexivity.
Defined.

(** ** Well-formed states *)

(** X7.  A call that returns keeps the state well formed: registry entries
    still point to live sensors, every pending pointer still points to a
    live message, and every mutex is free. *)
Theorem processMessages_preserves_well_formed (w w' : World) (this : addr) :
  well_formed w →
  processMessages this w = Ok tt w' →
  well_formed w'.
Proof.
  intros (Hreg & Hlists & Hfree) H.
  apply processMessages_Ok_inv in H
    as (s & p & rest & m & Hs & Hmx & Hl & Hm & ->).
  split_and!.
  - intros i a Hi. specialize (Hreg i a Hi). simpl in *.
    destruct (decide (a = this)) as [->|Hne].
    + rewrite lookup_insert_eq. by eexists.
    + by rewrite lookup_insert_ne.
  - apply map_Forall_insert_2; [|exact Hlists].
    specialize (Hlists this s Hs). simpl in *. rewrite Hl in Hlists.
    by apply Forall_cons in Hlists as [_ ?].
  - apply map_Forall_insert_2; [|exact Hfree]. done.
Qed.

Lemma processMessages_preserves_well_formed_witness :
  well_formed (with_sensor 2%positive (mkSensor 2 [1] [] None) arrival_world).
Proof.
  apply (processMessages_preserves_well_formed arrival_world _ 2%positive).
  - unfold well_formed, registry_live, lists_live, mutexes_free.
    split_and!; apply (bool_decide_unpack _); vm_compute; exact I.
  - reflexivity.
Defined.

(** X8.  In a well-formed state, a sensor found in the registry that has a
    message pending can process it: the call returns normally, it neither
    blocks nor runs into undefined behaviour. *)
Theorem processMessages_progress (w : World) (i : Z) (this : addr) :
  well_formed w →
  sensors w !! i = Some this →
  pending w this ≠ [] →
  ∃ w', processMessages this w = Ok tt w'.
Proof.
  intros (Hreg & Hlists & Hfree) Hi Hp.
  destruct (Hreg i this Hi) as [s Hs]. simpl in Hs.
  unfold pending in Hp. rewrite Hs in Hp.
  destruct (messageList s) as [|p rest] eqn:Hl; [done|].
  specialize (Hlists this s Hs). simpl in Hlists. rewrite Hl in Hlists.
  apply Forall_cons in Hlists as [[m Hm] _].
  eexists.
  eapply processMessages_Ok;
    [exact Hs | exact (Hfree this s Hs) | exact Hl | exact Hm].
Qed.

Lemma processMessages_progress_witness :
  ∃ w', processMessages 2%positive arrival_world = Ok tt w'.
Proof.
  apply (processMessages_progress arrival_world 2 2%positive).
  - unfold well_formed, registry_live, lists_live, mutexes_free.
    split_and!; apply (bool_decide_unpack _); vm_compute; exact I.
  - reflexivity.
  - discriminate.
Defined.

(** ** Further properties of [main] *)

(** X9.  The outcome of [main] does not depend on when the new thread gets
    to run: started at once or only when it is joined, return value,
    output and final state are the same. *)
Theorem main_schedule_independent (argc : Z) (argv : list string)
    (w : World) :
  main true argc argv w = main false argc argv w.
Proof. by rewrite !main_runs. Qed.

(** X10.  [main] joins the thread it starts: when it returns, the thread
    table is the old one followed by one joined thread, and the running
    thread is the caller again. *)
Theorem main_joins_its_thread (eager : bool) (argc : Z) (argv : list string)
    (w : World) :
  ∃ w', main eager argc argv w = Ok 0 w' ∧
        threads w' = (threads w ++ [Joined])%list ∧
        self w' = self w.
Proof. eexists. split; [apply main_runs | done]. Qed.
